(** * Cart state, pricing rule and checkout validation of [src/App.js]

    A shallow embedding of the storefront's core: [getCustomPrice]
    (the pricing rule), the cart operations [addToCart], [updateQty] and
    [removeFromCart] held in the [App] component's state, the cart total
    computed in [Cart], and [submitOrder] of [Checkout]; then the
    product list of [Home] (category menu, search, sort), [handleAdd] of
    [ProductDetails] and the cart count of [Navbar].

    Modelling conventions.
    - A JavaScript number that carries a price or a quantity is a rational
      ([Q]): the arithmetic operators are the exact ones, so rounding of
      binary64 results, [NaN] and the infinities are outside the model.
      Module [Binary64] evaluates the pricing rule on binary64 numbers,
      and module [Binary64Cart] carries [addToCart] and the total on
      them, for the properties in which the rounding matters.
      Product ids are integers ([Z]) compared with [===].
    - A JavaScript string is a [string]; [length] counts its code units.
    - A product and a cart line are the same kind of object in the source
      (a cart line is [{...product, qty}]); both are the record [item].
    - [useState] is explicit state passing: an operation that ends in
      [setCart e] is the function from the current cart to [e].
    - [alert msg; return] is the function returning [msg]. *)

From Stdlib Require Import QArith Qround Lqa.
From Stdlib Require Import PrimFloat SpecFloat FloatOps.
From stdpp Require Import gmap strings list sorting.

(** ** JavaScript primitives *)

Module JS.

(** [s.includes(t)]: [t] occurs in [s] as a contiguous substring. *)
Fixpoint includes (s t : string) : bool :=
  if String.prefix t s then true
  else match s with
       | EmptyString => false
       | String _ s' => includes s' t
       end.

(** Truthiness of a string: only the empty string is falsy. *)
Definition truthy (s : string) : bool :=
  match s with
  | EmptyString => false
  | String _ _ => true
  end.

(** The integer part of a number, rounding toward zero. *)
Definition trunc (a : Q) : Z := Z.quot (Qnum a) (Zpos (Qden a)).

(** [a % b]: the remainder of the truncating division, so that it takes
    the sign of the dividend [a]. The source only divides by [100]. *)
Definition rem (a b : Q) : Q := (a - b * inject_Z (trunc (a / b)))%Q.

End JS.

(** ** Data model *)

(** A catalog product, possibly extended with [size] by [handleAdd] and
    with [qty] by the cart. [qty] of an object that is not yet a cart line
    is never read. *)
Record item : Type := Item {
  id : Z;
  title : string;
  price : Q;
  description : string;
  category : string;
  image : string;
  size : option string;
  qty : Q
}.

(** [{ ...i, qty: q }] *)
Definition with_qty (i : item) (q : Q) : item :=
  {| id := id i; title := title i; price := price i;
     description := description i; category := category i;
     image := image i; size := size i; qty := q |}.

(** ** Price logic *)

Definition getCustomPrice (product : item) : Q :=
  let base := price product in
  let category := category product in
  if JS.includes category "clothing" then
    (200 + JS.rem base 100)%Q
  else if JS.includes category "electronics" then
    (20000 + base * 100)%Q
  else if JS.includes category "jewelery" then
    (5000 + base * 200)%Q
  else
    (1000 + base * 50)%Q.

(** ** Cart store (state of [App]) *)

Definition addToCart (product : item) (cart : list item) : list item :=
  let found := List.find (λ i, bool_decide (id i = id product)) cart in
  match found with
  | Some _ =>
      (λ i, if bool_decide (id i = id product)
            then with_qty i (qty i + 1)%Q else i) <$> cart
  | None => cart ++ [with_qty product 1%Q]
  end.

Definition updateQty (id0 : Z) (qty0 : Q) (cart : list item) : list item :=
  (λ i, if bool_decide (id i = id0) then with_qty i qty0 else i) <$> cart.

Definition removeFromCart (id0 : Z) (cart : list item) : list item :=
  filter (λ i, id i ≠ id0) cart.

(** The calls a session can make on the cart store, and their effect on
    the cart from one render to the next. *)
Inductive action : Type :=
  | AddToCart (product : item)
  | UpdateQty (id0 : Z) (qty0 : Q)
  | RemoveFromCart (id0 : Z).

Definition step (cart : list item) (a : action) : list item :=
  match a with
  | AddToCart product => addToCart product cart
  | UpdateQty id0 qty0 => updateQty id0 qty0 cart
  | RemoveFromCart id0 => removeFromCart id0 cart
  end.

Definition run (cart : list item) (acts : list action) : list item :=
  foldl step cart acts.

(** The ids of the lines of a cart, in cart order. *)
Definition ids (cart : list item) : list Z := id <$> cart.

(** ** Cart total (component [Cart]) *)

Definition total (cart : list item) : Q :=
  foldl (λ s i, (s + getCustomPrice i * qty i)%Q) 0%Q cart.

(** ** Checkout (component [Checkout]) *)

Record shipping : Type := Shipping {
  name : string;
  email : string;
  address : string
}.

Record card_details : Type := Card {
  number : string;
  expiry : string;
  cvv : string
}.

(** The message of the one [alert] that [submitOrder] raises. *)
Definition submitOrder (cart : list item) (form : shipping)
    (payment upi : string) (card : card_details) : string :=
  if negb (JS.truthy (name form)) || negb (JS.truthy (email form))
     || negb (JS.truthy (address form)) then
    "Please fill all address details"
  else if negb (JS.includes (email form) "@") then
    "Invalid email"
  else if bool_decide (length cart = 0%nat) then
    "Cart is empty"
  else if bool_decide (payment = "upi")
          && bool_decide (String.length upi < 5)%nat then
    "Enter valid UPI ID"
  else if bool_decide (payment = "card")
          && (bool_decide (String.length (number card) < 12)%nat
              || negb (JS.truthy (expiry card))
              || bool_decide (String.length (cvv card) < 3)%nat) then
    "Enter valid card details"
  else if bool_decide (payment = "cod") then
    "Order placed successfully (Cash on Delivery)"
  else
    "Payment successful! Order placed".

(** ** The pricing rule on binary64 numbers

    The numbers of the source are binary64 floating-point numbers. The
    module below evaluates the pricing rule on them, to tell where the
    rounding of a sum or a product departs from the exact result. *)

Module Binary64.

(** [x % y] on binary64 numbers: the remainder of the truncating division
    is a binary64 number, so no rounding takes place. *)
Definition rem (x y : float) : float :=
  match Prim2SF x, Prim2SF y with
  | S754_nan, _ | _, S754_nan => nan
  | S754_infinity _, _ | _, S754_zero _ => nan
  | _, S754_infinity _ | S754_zero _, _ => x
  | S754_finite sx mx ex, S754_finite _ my ey =>
      let e := Z.min ex ey in
      let r := Z.rem (Zpos mx * 2 ^ (ex - e)) (Zpos my * 2 ^ (ey - e)) in
      SF2Prim (binary_normalize prec emax (if sx then (- r)%Z else r) e sx)
  end.

(** [getCustomPrice], as a function of the two fields it reads. *)
Definition getCustomPrice (category : string) (base : float) : float :=
  if JS.includes category "clothing" then
    (200 + rem base 100)%float
  else if JS.includes category "electronics" then
    (20000 + base * 100)%float
  else if JS.includes category "jewelery" then
    (5000 + base * 200)%float
  else
    (1000 + base * 50)%float.

End Binary64.

(** ** The cart on binary64 numbers

    The cart store and the total with the numbers of the source: [price]
    and [qty] are binary64 numbers, and [+] and [*] round their result. *)

Module Binary64Cart.

Record item : Type := Item {
  id : Z;
  title : string;
  price : float;
  description : string;
  category : string;
  image : string;
  size : option string;
  qty : float
}.

(** [{ ...i, qty: q }] *)
Definition with_qty (i : item) (q : float) : item :=
  {| id := id i; title := title i; price := price i;
     description := description i; category := category i;
     image := image i; size := size i; qty := q |}.

Definition getCustomPrice (product : item) : float :=
  let base := price product in
  let category := category product in
  if JS.includes category "clothing" then
    (200 + Binary64.rem base 100)%float
  else if JS.includes category "electronics" then
    (20000 + base * 100)%float
  else if JS.includes category "jewelery" then
    (5000 + base * 200)%float
  else
    (1000 + base * 50)%float.

Definition addToCart (product : item) (cart : list item) : list item :=
  let found := List.find (λ i, bool_decide (id i = id product)) cart in
  match found with
  | Some _ =>
      (λ i, if bool_decide (id i = id product)
            then with_qty i (qty i + 1)%float else i) <$> cart
  | None => cart ++ [with_qty product 1%float]
  end.

Definition total (cart : list item) : float :=
  foldl (λ s i, (s + getCustomPrice i * qty i)%float) 0%float cart.

(** Two objects agree on every field other than [qty]. *)
Definition same_but_qty (a b : item) : Prop :=
  id a = id b ∧ title a = title b ∧ price a = price b
  ∧ description a = description b ∧ category a = category b
  ∧ image a = image b ∧ size a = size b.

End Binary64Cart.

(** ** Further JavaScript primitives *)

Module JSLib.

(** One code unit of [s.toLowerCase()], for code units below 256: the
    letters [A]-[Z] and the accented capitals of Latin-1 move up by 32. *)
Definition lower_unit (c : Ascii.ascii) : Ascii.ascii :=
  let n := Ascii.N_of_ascii c in
  if (65 <=? n)%N && (n <=? 90)%N then Ascii.ascii_of_N (n + 32)
  else if (192 <=? n)%N && (n <=? 222)%N && negb (n =? 215)%N
       then Ascii.ascii_of_N (n + 32)
       else c.

(** [s.toLowerCase()] *)
Fixpoint toLowerCase (s : string) : string :=
  match s with
  | EmptyString => EmptyString
  | String c s' => String (lower_unit c) (toLowerCase s')
  end.

(** Where [x] goes in an array already sorted by [compare]: after the
    elements that [compare] puts strictly before it. *)
Fixpoint insert {A : Type} (compare : A → A → Q) (x : A) (l : list A)
    : list A :=
  match l with
  | [] => [x]
  | y :: l' =>
      if Qle_bool 0 (compare y x) then x :: y :: l'
      else y :: insert compare x l'
  end.

(** [l.sort(compare)]: the sort is stable, so for a comparator that
    orders by a key the result is the one of inserting the elements from
    the last to the first. *)
Definition sort {A : Type} (compare : A → A → Q) (l : list A) : list A :=
  foldr (insert compare) [] l.

(** [[...new Set(l)]]: the elements of [l] in the order of their first
    occurrence. *)
Definition new_Set `{EqDecision A} (l : list A) : list A :=
  foldl (λ seen x, if decide (x ∈ seen) then seen else seen ++ [x]) [] l.

(** [x.toFixed(0)], as the integer that the digits spell: the nearest
    integer, a half rounding away from zero. *)
Definition toFixed0 (x : Q) : Z :=
  if Qle_bool 0 x then Qfloor (x + (1 # 2))%Q
  else (- Qfloor (- x + (1 # 2))%Q)%Z.

End JSLib.

(** ** Navigation bar (component [Navbar]) *)

(** The number shown beside the cart link: [cart.length]. *)
Definition cartCount (cart : list item) : nat := length cart.

(** ** Product list (component [Home]) *)

(** The options of the category menu. *)
Definition categories (products : list item) : list string :=
  "all" :: JSLib.new_Set (category <$> products).

(** The products shown, for the text of the search box and the options
    chosen in the two menus. *)
Definition filtered (products : list item) (search sort category0 : string)
    : list item :=
  let filtered :=
    filter (λ p, Is_true (if bool_decide (category0 = "all") then true
                          else bool_decide (category p = category0)))
      (filter (λ p, Is_true (JS.includes (JSLib.toLowerCase (title p))
                                          (JSLib.toLowerCase search)))
         products) in
  let filtered :=
    if bool_decide (sort = "low")
    then JSLib.sort (λ a b, getCustomPrice a - getCustomPrice b)%Q filtered
    else filtered in
  if bool_decide (sort = "high")
  then JSLib.sort (λ a b, getCustomPrice b - getCustomPrice a)%Q filtered
  else filtered.

(** ** Product page (component [ProductDetails]) *)

(** [{ ...product, size }] *)
Definition with_size (product : item) (size0 : string) : item :=
  {| id := id product; title := title product; price := price product;
     description := description product; category := category product;
     image := image product; size := Some size0; qty := qty product |}.

(** [handleAdd]: the message of the [alert], if one is raised, and the
    cart it leaves. The [added] flag that the button shows for a while is
    left out. *)
Definition handleAdd (product : item) (size0 : string) (cart : list item)
    : option string * list item :=
  let isClothing := JS.includes (category product) "clothing" in
  if isClothing && negb (JS.truthy size0) then
    (Some "Please select a size", cart)
  else
    (None, addToCart (with_size product size0) cart).

(** What a visitor can do to the cart: [handleAdd] on the product page,
    and the quantity box and the remove button of the cart page. *)
Inductive gesture : Type :=
  | HandleAdd (product : item) (size0 : string)
  | ChangeQty (id0 : Z) (qty0 : Q)
  | Remove (id0 : Z).

Definition after (cart : list item) (g : gesture) : list item :=
  match g with
  | HandleAdd product size0 => (handleAdd product size0 cart).2
  | ChangeQty id0 qty0 => updateQty id0 qty0 cart
  | Remove id0 => removeFromCart id0 cart
  end.

Definition session (gs : list gesture) : list item := foldl after [] gs.

(** ** Specification vocabulary *)

(** Substring containment, as the specification words it: [t] occurs
    somewhere inside [s]. *)
Definition contains (s t : string) : Prop :=
  ∃ pre post : string, s = pre +:+ t +:+ post.


(** Two objects agree on every field other than [qty]. *)
Definition same_but_qty (a b : item) : Prop :=
  id a = id b ∧ title a = title b ∧ price a = price b
  ∧ description a = description b ∧ category a = category b
  ∧ image a = image b ∧ size a = size b.

(** The five rules of the checkout validator, each as the condition under
    which it rejects an order. *)
Definition incomplete_shipping (form : shipping) : Prop :=
  name form = "" ∨ email form = "" ∨ address form = "".

Definition invalid_email (form : shipping) : Prop :=
  ¬ contains (email form) "@".

Definition empty_cart (cart : list item) : Prop := cart = [].

Definition invalid_upi (payment upi : string) : Prop :=
  payment = "upi" ∧ String.length upi < 5.

Definition invalid_card (payment : string) (card : card_details) : Prop :=
  payment = "card"
  ∧ (String.length (number card) < 12 ∨ expiry card = ""
     ∨ String.length (cvv card) < 3).

(** The line of a cart with a given id, if there is one:
    [cart.find((i) => i.id === id0)]. *)
Definition line_of (id0 : Z) (cart : list item) : option item :=
  List.find (λ i, bool_decide (id i = id0)) cart.

(** How many of the products of a list have a given id. *)
Definition added (id0 : Z) (products : list item) : nat :=
  length (filter (λ p, id p = id0) products).

(** A line carries a size, and a size that is not empty when its
    category contains "clothing". *)
Definition sized (line : item) : Prop :=
  ∃ s : string, size line = Some s
    ∧ (contains (category line) "clothing" → s ≠ "").

(** * Properties *)

(** ** Strings *)

Section js_strings.
Implicit Types s t pre post : string.

Lemma prefix_true_iff t s :
  String.prefix t s = true ↔ ∃ post, s = t +:+ post.
Proof.
  revert s. induction t as [|a t IH]; intros s; simpl.
  - destruct s; split; eauto.
  - destruct s as [|b s]; simpl.
    + split; [done | intros [post Hp]; discriminate].
    + destruct (Ascii.ascii_dec a b) as [->|Hne].
      * rewrite IH. split; intros [post Hp]; exists post.
        -- by rewrite Hp.
        -- by injection Hp.
      * split; [done | intros [post Hp]; simpl in Hp; injection Hp as Hab _; done].
Qed.

Lemma includes_unfold s t :
  JS.includes s t =
    if String.prefix t s then true
    else match s with
         | EmptyString => false
         | String _ s' => JS.includes s' t
         end.
Proof. by destruct s. Qed.

Lemma includes_true_iff s t : JS.includes s t = true ↔ contains s t.
Proof.
  unfold contains. induction s as [|a s IH]; rewrite includes_unfold;
    destruct (String.prefix t _) eqn:Hp.
  - split; [intros _ | done].
    apply prefix_true_iff in Hp as [post Hp]. by exists "", post.
  - split; [done | intros ([|b pre] & post & Heq); [|discriminate]].
    rewrite <- Hp. apply prefix_true_iff. eauto.
  - split; [intros _ | done].
    apply prefix_true_iff in Hp as [post Hp]. by exists "", post.
  - rewrite IH. split.
    + intros (pre & post & ->). by exists (String a pre), post.
    + intros ([|b pre] & post & Heq).
      * assert (String.prefix t (String a s) = true) as Hq
          by (apply prefix_true_iff; eauto).
        congruence.
      * injection Heq as -> ->. eauto.
Qed.

Lemma includes_false_iff s t : JS.includes s t = false ↔ ¬ contains s t.
Proof.
  rewrite <- includes_true_iff. by destruct (JS.includes s t).
Qed.

Lemma truthy_false_iff s : JS.truthy s = false ↔ s = "".
Proof. by destruct s. Qed.

Lemma truthy_true_iff s : JS.truthy s = true ↔ s ≠ "".
Proof. by destruct s. Qed.
End js_strings.

(** ** Numbers *)

Section js_numbers.
Open Scope Q_scope.
Implicit Types a b : Q.

Lemma trunc_floor a : 0 <= a → JS.trunc a = Qfloor a.
Proof.
  destruct a as [n d]. unfold Qle, JS.trunc, Qfloor. simpl. intros Hn.
  apply Z.quot_div_nonneg; lia.
Qed.

Lemma rem_opp a b : JS.rem (- a) b == - JS.rem a b.
Proof.
  unfold JS.rem.
  assert (JS.trunc (- a / b) = (- JS.trunc (a / b))%Z) as ->.
  { unfold JS.trunc, Qdiv, Qmult. simpl.
    rewrite Z.mul_opp_l. apply Z.quot_opp_l. lia. }
  rewrite inject_Z_opp. ring.
Qed.

(** The remainder of a non-negative number by [100] is the number minus
    the largest multiple of [100] below it. *)
Lemma rem_100_nonneg a :
  0 <= a →
  0 <= JS.rem a 100 < 100
  ∧ ∃ k : Z, (0 <= k)%Z ∧ a == 100 * inject_Z k + JS.rem a 100.
Proof.
  intros Ha. unfold JS.rem.
  assert (0 <= a / 100) as Hq by (apply Qle_shift_div_l; lra).
  rewrite (trunc_floor _ Hq).
  pose proof (Qfloor_le (a / 100)) as Hlo.
  pose proof (Qlt_floor (a / 100)) as Hhi.
  rewrite inject_Z_plus in Hhi. change (inject_Z 1) with 1 in Hhi.
  assert (0 <= Qfloor (a / 100))%Z as Hk.
  { change 0%Z with (Qfloor 0). by apply Qfloor_resp_le. }
  split; [|exists (Qfloor (a / 100)); split; [done | ring]].
  set (f := inject_Z (Qfloor (a / 100))) in *.
  assert (a == 100 * (a / 100)) as Ha' by field.
  lra.
Qed.

(** The remainder of a negative number is not positive. *)
Lemma rem_100_nonpos a : a <= 0 → -100 < JS.rem a 100 <= 0.
Proof.
  intros Ha.
  assert (0 <= - a) as Hn by lra.
  destruct (rem_100_nonneg _ Hn) as [Hb _].
  rewrite rem_opp in Hb. lra.
Qed.
End js_numbers.

(** ** Pricing rule *)

Section pricing.
Open Scope Q_scope.


(** For a negative raw price the clothing price falls in [(100, 200]]. *)
Lemma clothing_price_negative (product : item) :
  contains (category product) "clothing" →
  price product <= 0 →
  100 < getCustomPrice product <= 200.
Proof.
  intros Hc%includes_true_iff Hp. unfold getCustomPrice. rewrite Hc.
  pose proof (rem_100_nonpos _ Hp). lra.
Qed.

(** The source computes the sum [200 + price % 100] rounded to a binary64
    number. Rounding is monotone and leaves [200] and [300] as they are,
    so for a non-negative raw price the rounded sum stays within the
    closed range from [200] to [300]. *)
Lemma clothing_price_rounded (rnd : Q → Q) (product : item) :
  (∀ a b : Q, a <= b → rnd a <= rnd b) →
  rnd 200 == 200 → rnd 300 == 300 →
  contains (category product) "clothing" →
  0 <= price product →
  200 <= rnd (getCustomPrice product) <= 300.
Proof.
  intros Hmono H200 H300 Hc%includes_true_iff Hp.
  unfold getCustomPrice. rewrite Hc.
  destruct (rem_100_nonneg _ Hp) as [Hb _].
  assert (rnd 200 <= rnd (200 + JS.rem (price product) 100)) as Hlo
    by (apply Hmono; lra).
  assert (rnd (200 + JS.rem (price product) 100) <= rnd 300) as Hhi
    by (apply Hmono; lra).
  lra.
Qed.

(** On binary64 numbers the upper end is reached: for the
    largest binary64 number below [100] (written [99.99999999999999] in
    decimal) the remainder is the price itself and the sum rounds to
    [300]. A negative price gives the same result as in exact
    arithmetic. *)
Lemma binary64_clothing_price_300 :
  Binary64.rem 0x1.8ffffffffffffp+6%float 100%float
  = 0x1.8ffffffffffffp+6%float
  ∧ Binary64.getCustomPrice "men's clothing" 0x1.8ffffffffffffp+6%float
    = 300%float
  ∧ Binary64.getCustomPrice "men's clothing" (-50)%float = 150%float.
Proof. split_and!; reflexivity. Qed.

End pricing.

(** ** Cart store *)

Section cart_store.
Implicit Types (cart : list item) (product line : item) (q : Q).

Lemma with_qty_same line q : same_but_qty (with_qty line q) line.
Proof. by repeat split. Qed.

Lemma same_but_qty_refl line : same_but_qty line line.
Proof. by repeat split. Qed.

Lemma find_by_id_Some (id0 : Z) cart :
  is_Some (List.find (λ i, bool_decide (id i = id0)) cart) ↔ id0 ∈ ids cart.
Proof.
  unfold ids. induction cart as [|i cart IH]; simpl.
  - split; [by intros [? ?] | by intros ?%elem_of_nil].
  - rewrite elem_of_cons. case_bool_decide as Hi.
    + split; [by left | by eauto].
    + rewrite IH. split; [by right | by intros [?|?]].
Qed.

Lemma find_by_id_None (id0 : Z) cart :
  List.find (λ i, bool_decide (id i = id0)) cart = None ↔ id0 ∉ ids cart.
Proof. rewrite <- find_by_id_Some, eq_None_not_Some. done. Qed.

(** Replacing the quantity of the lines of one id keeps the ids. *)
Lemma ids_set_qty (id0 : Z) (f : item → Q) cart :
  ids ((λ i, if bool_decide (id i = id0) then with_qty i (f i) else i)
         <$> cart) = ids cart.
Proof.
  unfold ids. rewrite <- list_fmap_compose. apply list_fmap_ext.
  intros n i _. simpl. by case_bool_decide.
Qed.

Lemma set_qty_absent (id0 : Z) (f : item → Q) cart :
  id0 ∉ ids cart →
  (λ i, if bool_decide (id i = id0) then with_qty i (f i) else i) <$> cart
  = cart.
Proof.
  intros Hn. rewrite <- (list_fmap_id cart) at 2. apply list_fmap_ext.
  intros n i Hi. simpl. case_bool_decide as Heq; [|done].
  destruct Hn. unfold ids. rewrite list_elem_of_fmap. exists i.
  split; [done | by eapply list_elem_of_lookup_2].
Qed.

Lemma addToCart_present product cart :
  id product ∈ ids cart →
  addToCart product cart =
    (λ i, if bool_decide (id i = id product)
          then with_qty i (qty i + 1)%Q else i) <$> cart.
Proof.
  intros [i Hi]%find_by_id_Some. unfold addToCart. by rewrite Hi.
Qed.

Lemma addToCart_absent product cart :
  id product ∉ ids cart →
  addToCart product cart = cart ++ [with_qty product 1%Q].
Proof.
  intros Hi%find_by_id_None. unfold addToCart. by rewrite Hi.
Qed.

Lemma ids_addToCart product cart :
  ids (addToCart product cart) =
    if decide (id product ∈ ids cart) then ids cart
    else ids cart ++ [id product].
Proof.
  case_decide as Hin.
  - rewrite (addToCart_present _ _ Hin).
    apply (ids_set_qty _ (λ i, (qty i + 1)%Q)).
  - rewrite (addToCart_absent _ _ Hin). unfold ids. by rewrite fmap_app.
Qed.

Lemma ids_updateQty (id0 : Z) q cart : ids (updateQty id0 q cart) = ids cart.
Proof. apply (ids_set_qty _ (λ _, q)). Qed.

Lemma ids_removeFromCart (id0 : Z) cart :
  ids (removeFromCart id0 cart) = filter (λ x, x ≠ id0) (ids cart).
Proof.
  unfold ids, removeFromCart. induction cart as [|i cart IH]; [done|].
  rewrite fmap_cons, !filter_cons. simpl.
  case_decide; rewrite ?fmap_cons, IH; done.
Qed.

Lemma step_NoDup cart (a : action) :
  NoDup (ids cart) → NoDup (ids (step cart a)).
Proof.
  intros Hnd. destruct a as [product | id0 q | id0]; simpl.
  - rewrite ids_addToCart. case_decide as Hin; [done|].
    apply NoDup_app. split_and!; [done | | apply NoDup_singleton].
    intros x Hx ->%list_elem_of_singleton. done.
  - by rewrite ids_updateQty.
  - rewrite ids_removeFromCart. by apply NoDup_filter.
Qed.

Lemma run_NoDup cart (acts : list action) :
  NoDup (ids cart) → NoDup (ids (run cart acts)).
Proof.
  unfold run. revert cart.
  induction acts as [|a acts IH]; intros cart Hnd; simpl; [done|].
  by apply IH, step_NoDup.
Qed.

Lemma addToCart_id_set product cart :
  list_to_set (ids (addToCart product cart)) =@{gset Z}
    list_to_set (ids cart) ∪ {[id product]}.
Proof.
  rewrite ids_addToCart. case_decide as Hin.
  - symmetry. rewrite (comm_L (∪)).
    apply subseteq_union_1_L, singleton_subseteq_l.
    by apply elem_of_list_to_set.
  - rewrite list_to_set_app_L. simpl. by rewrite (right_id_L ∅ (∪)).
Qed.

(** The ids in the cart after a sequence of additions are the ids it
    had together with the ids added. *)
Lemma run_add_ids cart (products : list item) :
  list_to_set (ids (run cart (AddToCart <$> products))) =@{gset Z}
    list_to_set (ids cart) ∪ list_to_set (id <$> products).
Proof.
  unfold run. revert cart.
  induction products as [|p products IH]; intros cart; simpl.
  - by rewrite (right_id_L ∅ (∪)).
  - by rewrite IH, addToCart_id_set, (assoc_L (∪)).
Qed.

Lemma NoDup_length_size (l : list Z) :
  NoDup l → length l = base.size (list_to_set l : gset Z).
Proof.
  induction 1 as [|x l Hx Hnd IH]; simpl; [done|].
  rewrite size_union, size_singleton, IH; [done|].
  apply disjoint_singleton_l. by rewrite elem_of_list_to_set.
Qed.

(** The scenario of the specification: adding the product of id [5]
    twice leaves one line of id [5] with [qty = 2]. *)
Example addToCart_twice :
  run [] [AddToCart (Item 5 "Shirt" 50 "" "men's clothing" "" (Some "M") 0);
          AddToCart (Item 5 "Shirt" 50 "" "men's clothing" "" (Some "M") 0)]
  = [Item 5 "Shirt" 50 "" "men's clothing" "" (Some "M") 2].
Proof. reflexivity. Qed.

(** A quantity edit to zero or below keeps the line. *)
Example updateQty_zero_and_negative :
  updateQty 5 0 [Item 5 "Shirt" 50 "" "men's clothing" "" (Some "M") 2]
  = [Item 5 "Shirt" 50 "" "men's clothing" "" (Some "M") 0]
  ∧ updateQty 5 (-3) [Item 5 "Shirt" 50 "" "men's clothing" "" (Some "M") 2]
    = [Item 5 "Shirt" 50 "" "men's clothing" "" (Some "M") (-3)].
Proof. split; reflexivity. Qed.

(** C7: [updateQty] replaces the [qty] of the line of the given id by
    the given number, whatever it is, and nothing else: the cart keeps
    its length and order, a line of that id keeps every other field, a
    line of another id is as before, and a cart without a line of that
    id is returned as it was. *)
Theorem updateQty_frame (id0 : Z) q cart :
  length (updateQty id0 q cart) = length cart
  ∧ (∀ (n : nat) line, cart !! n = Some line →
       ∃ line', updateQty id0 q cart !! n = Some line'
         ∧ same_but_qty line' line
         ∧ (id line = id0 → qty line' = q)
         ∧ (id line ≠ id0 → line' = line))
  ∧ (id0 ∉ ids cart → updateQty id0 q cart = cart).
Proof.
  unfold updateQty. split_and!.
  - by rewrite length_fmap.
  - intros n line Hn. rewrite list_lookup_fmap, Hn. simpl.
    case_bool_decide as Heq.
    + eexists. split; [done|].
      split_and!; [apply with_qty_same | done | done].
    + exists line. split; [done|].
      split_and!; [apply same_but_qty_refl | done | done].
  - apply (set_qty_absent _ (λ _, q)).
Qed.

(** C8: after [removeFromCart] no line has the given id; a cart that
    had no such line is returned as it was; the lines of the other ids
    are exactly those that remain, in their order. *)
Theorem removeFromCart_removes (id0 : Z) cart :
  (id0 ∉ ids (removeFromCart id0 cart))
  ∧ (id0 ∉ ids cart → removeFromCart id0 cart = cart)
  ∧ (∀ line, id line ≠ id0 →
       (line ∈ removeFromCart id0 cart ↔ line ∈ cart))
  ∧ (removeFromCart id0 cart `sublist_of` cart).
Proof.
  unfold removeFromCart. split_and!.
  - unfold ids. rewrite list_elem_of_fmap. intros (line & Hid & Hin).
    apply list_elem_of_filter in Hin as [Hne _]. done.
  - intros Hn. induction cart as [|i cart IH]; [done|].
    unfold ids in Hn. rewrite fmap_cons, not_elem_of_cons in Hn.
    destruct Hn as [Hi Hn]. rewrite filter_cons.
    case_decide as Hd; [by rewrite IH | by destruct Hd].
  - intros line Hne. rewrite list_elem_of_filter. tauto.
  - apply sublist_filter.
Qed.

(** C3: no two lines of a cart share an id, and every operation of the
    cart store keeps it so: one call does, any finite sequence of calls
    does, and from the empty cart a sequence of [addToCart] calls ends
    with as many lines as there are distinct ids among the products
    added. *)
Theorem cart_unique_ids_invariant :
  (∀ cart (a : action), NoDup (ids cart) → NoDup (ids (step cart a)))
  ∧ (∀ cart (acts : list action),
       NoDup (ids cart) → NoDup (ids (run cart acts)))
  ∧ (∀ products : list item,
       NoDup (ids (run [] (AddToCart <$> products)))
       ∧ length (run [] (AddToCart <$> products))
         = base.size (list_to_set (id <$> products) : gset Z)).
Proof.
  split_and!.
  - apply step_NoDup.
  - apply run_NoDup.
  - intros products.
    assert (NoDup (ids (run [] (AddToCart <$> products)))) as Hnd
      by apply run_NoDup, NoDup_nil_2.
    split; [done|].
    rewrite <- (length_fmap id). fold (ids (run [] (AddToCart <$> products))).
    rewrite (NoDup_length_size _ Hnd), run_add_ids. simpl.
    by rewrite (left_id_L ∅ (∪)).
Qed.
End cart_store.

(** ** Cart total *)

Section cart_total.
Open Scope Q_scope.


End cart_total.

(** ** Checkout *)

Section checkout.
Implicit Types (cart : list item) (form : shipping) (card : card_details).
Implicit Types (payment upi : string).

Lemma shipping_guard form :
  negb (JS.truthy (name form)) || negb (JS.truthy (email form))
  || negb (JS.truthy (address form)) = true
  ↔ incomplete_shipping form.
Proof.
  unfold incomplete_shipping.
  destruct (name form), (email form), (address form); simpl;
    intuition congruence.
Qed.

Lemma email_guard form :
  negb (JS.includes (email form) "@") = true ↔ invalid_email form.
Proof.
  unfold invalid_email. rewrite negb_true_iff. apply includes_false_iff.
Qed.

Lemma cart_guard cart :
  bool_decide (length cart = 0) = true ↔ empty_cart cart.
Proof.
  unfold empty_cart. rewrite bool_decide_eq_true. apply length_zero_iff_nil.
Qed.

Lemma upi_guard payment upi :
  bool_decide (payment = "upi") && bool_decide (String.length upi < 5) = true
  ↔ invalid_upi payment upi.
Proof.
  unfold invalid_upi. by rewrite andb_true_iff, !bool_decide_eq_true.
Qed.

Lemma card_guard payment card :
  bool_decide (payment = "card")
  && (bool_decide (String.length (number card) < 12)
      || negb (JS.truthy (expiry card))
      || bool_decide (String.length (cvv card) < 3)) = true
  ↔ invalid_card payment card.
Proof.
  unfold invalid_card.
  rewrite andb_true_iff, !orb_true_iff, !bool_decide_eq_true,
    negb_true_iff, truthy_false_iff.
  tauto.
Qed.

(** Case analysis on the guards of [submitOrder], each replaced by the
    rule it decides. *)
Ltac submitOrder_cases cart form payment upi card :=
  unfold submitOrder;
  pose proof (shipping_guard form) as G1;
  pose proof (email_guard form) as G2;
  pose proof (cart_guard cart) as G3;
  pose proof (upi_guard payment upi) as G4;
  pose proof (card_guard payment card) as G5;
  pose proof (bool_decide_eq_true (payment = "cod")) as G6;
  repeat match goal with
    | |- context [if ?b then _ else _] => destruct b
    end.

(** The scenario of the specification: a UPI id of three characters. *)
Example submitOrder_short_upi :
  submitOrder [Item 1 "" 50 "" "clothing" "" None 2]
    (Shipping "A" "a@b.com" "X") "upi" "abc" (Card "" "" "")
  = "Enter valid UPI ID".
Proof. reflexivity. Qed.

(** C5: [submitOrder] checks the five rules in order and reports the
    first that fails: shipping field empty, email without "@", cart
    empty, "upi" with an id shorter than 5, "card" with a number shorter
    than 12 or no expiry or a cvv shorter than 3. When none fails, it
    reports success, with one message for "cod" and another for the
    other methods. With an empty name and an empty cart the report is
    the one about the address details. *)
Theorem submitOrder_first_failing_rule cart form payment upi card :
  (incomplete_shipping form →
     submitOrder cart form payment upi card
     = "Please fill all address details")
  ∧ (¬ incomplete_shipping form → invalid_email form →
     submitOrder cart form payment upi card = "Invalid email")
  ∧ (¬ incomplete_shipping form → ¬ invalid_email form → empty_cart cart →
     submitOrder cart form payment upi card = "Cart is empty")
  ∧ (¬ incomplete_shipping form → ¬ invalid_email form → ¬ empty_cart cart →
     invalid_upi payment upi →
     submitOrder cart form payment upi card = "Enter valid UPI ID")
  ∧ (¬ incomplete_shipping form → ¬ invalid_email form → ¬ empty_cart cart →
     ¬ invalid_upi payment upi → invalid_card payment card →
     submitOrder cart form payment upi card = "Enter valid card details")
  ∧ (¬ incomplete_shipping form → ¬ invalid_email form → ¬ empty_cart cart →
     ¬ invalid_upi payment upi → ¬ invalid_card payment card →
     (payment = "cod" →
        submitOrder cart form payment upi card
        = "Order placed successfully (Cash on Delivery)")
     ∧ (payment ≠ "cod" →
        submitOrder cart form payment upi card
        = "Payment successful! Order placed"))
  ∧ (name form = "" →
     submitOrder [] form payment upi card
     = "Please fill all address details").
Proof.
  split_and!; [..|intros Hn].
  all: submitOrder_cases cart form payment upi card.
  all: unfold incomplete_shipping in *; intuition congruence.
Qed.

(** C9: when the payment method is neither "upi" nor "card", the
    report of [submitOrder] does not depend on the UPI id or on the
    card number, expiry and cvv: two runs that differ only in those
    fields report the same message. *)
Theorem submitOrder_unused_payment_fields
    cart form payment upi upi' card card' :
  payment ≠ "upi" → payment ≠ "card" →
  submitOrder cart form payment upi card
  = submitOrder cart form payment upi' card'.
Proof.
  intros Hupi Hcard. unfold submitOrder.
  by rewrite !(bool_decide_eq_false_2 _ Hupi),
    !(bool_decide_eq_false_2 _ Hcard).
Qed.

Lemma submitOrder_unused_payment_fields_witness :
  "cod" ≠ "upi" ∧ "cod" ≠ "card"
  ∧ submitOrder [Item 1 "" 50 "" "clothing" "" None 2]
      (Shipping "A" "a@b.com" "X") "cod" "" (Card "" "" "")
    = submitOrder [Item 1 "" 50 "" "clothing" "" None 2]
        (Shipping "A" "a@b.com" "X") "cod" "abc" (Card "4111" "12/30" "1").
Proof.
  split; [discriminate|]. split; [discriminate|].
  apply submitOrder_unused_payment_fields; discriminate.
Defined.

(** C10: a payment method other than "upi" and "card", documented or
    not, is accepted: with the three shipping fields non-empty, an "@"
    in the email and a non-empty cart, [submitOrder] reports success,
    with the cash-on-delivery message when the method is "cod" and the
    payment message for every other method. *)
Theorem submitOrder_other_methods_accepted cart form payment upi card :
  payment ≠ "upi" → payment ≠ "card" →
  name form ≠ "" → email form ≠ "" → address form ≠ "" →
  contains (email form) "@" →
  cart ≠ [] →
  (payment = "cod" →
     submitOrder cart form payment upi card
     = "Order placed successfully (Cash on Delivery)")
  ∧ (payment ≠ "cod" →
     submitOrder cart form payment upi card
     = "Payment successful! Order placed").
Proof.
  intros Hupi Hcard Hn He Ha Hat Hcart.
  pose proof Hupi as Hupi'. pose proof Hcard as Hcard'.
  submitOrder_cases cart form payment upi card.
  all: unfold incomplete_shipping, invalid_email, empty_cart,
         invalid_upi, invalid_card in *; intuition congruence.
Qed.

Lemma submitOrder_other_methods_accepted_witness :
  "paypal" ≠ "upi" ∧ "paypal" ≠ "card"
  ∧ contains "a@b.com" "@"
  ∧ submitOrder [Item 1 "" 50 "" "clothing" "" None 2]
      (Shipping "A" "a@b.com" "X") "paypal" "" (Card "" "" "")
    = "Payment successful! Order placed".
Proof.
  assert (contains "a@b.com" "@") as Hat by (by exists "a", "b.com").
  split; [discriminate|]. split; [discriminate|]. split; [exact Hat|].
  apply (submitOrder_other_methods_accepted
           [Item 1 "" 50 "" "clothing" "" None 2]
           (Shipping "A" "a@b.com" "X") "paypal" "" (Card "" "" ""));
    try discriminate; exact Hat.
Defined.
(** X29: An order is reported as placed exactly when none of the five rules
    rejects it; otherwise the report is one of the five refusals. *)
Theorem submitOrder_placed_iff cart form payment upi card :
  submitOrder cart form payment upi card
    = "Order placed successfully (Cash on Delivery)"
  ∨ submitOrder cart form payment upi card
    = "Payment successful! Order placed"
  ↔ ¬ incomplete_shipping form ∧ ¬ invalid_email form ∧ ¬ empty_cart cart
    ∧ ¬ invalid_upi payment upi ∧ ¬ invalid_card payment card.
Proof.
  submitOrder_cases cart form payment upi card.
  all: split; [intros [?|?]; try discriminate | intros (? & ? & ? & ? & ?)].
  all: try (split_and!; intuition congruence).
  all: intuition congruence.
Qed.

(** X30: The lines of the cart play no part in the checkout beyond there
    being one: any two carts that are not empty get the same report. *)
Theorem submitOrder_any_cart cart cart' form payment upi card :
  cart ≠ [] → cart' ≠ [] →
  submitOrder cart form payment upi card
  = submitOrder cart' form payment upi card.
Proof.
  intros Hc Hc'. unfold submitOrder.
  destruct cart; [done|]. destruct cart'; [done|]. done.
Qed.

Lemma submitOrder_any_cart_witness :
  submitOrder [Item 5 "Shirt" 50 "" "men's clothing" "" (Some "M") 0]
    (Shipping "A" "a@b.com" "X") "cod" "" (Card "" "" "")
  = submitOrder [Item 1 "TV" 300 "" "electronics" "" None 2]
      (Shipping "A" "a@b.com" "X") "cod" "" (Card "" "" "").
Proof. apply submitOrder_any_cart; discriminate. Defined.

End checkout.

(** ** More on the pricing rule *)

Section pricing_more.
Open Scope Q_scope.

(** The display price in each of the four cases. *)
Lemma getCustomPrice_cases (product : item) :
  (contains (category product) "clothing"
   ∧ getCustomPrice product = 200 + JS.rem (price product) 100)
  ∨ (¬ contains (category product) "clothing"
     ∧ (getCustomPrice product = 20000 + price product * 100
        ∨ getCustomPrice product = 5000 + price product * 200
        ∨ getCustomPrice product = 1000 + price product * 50)).
Proof.
  unfold getCustomPrice.
  destruct (JS.includes (category product) "clothing") eqn:Hc.
  - left. split; [by apply includes_true_iff | done].
  - right. split; [by apply includes_false_iff |].
    destruct (JS.includes _ "electronics"); [by left |].
    destruct (JS.includes _ "jewelery"); [right; by left | right; by right].
Qed.

Lemma rem_100_congruent (a b : Q) (k : Z) :
  0 <= a → 0 <= b → b == a + 100 * inject_Z k →
  JS.rem b 100 == JS.rem a 100.
Proof.
  intros Ha Hb Hab.
  destruct (rem_100_nonneg _ Ha) as [Hra (ka & _ & Hka)].
  destruct (rem_100_nonneg _ Hb) as [Hrb (kb & _ & Hkb)].
  assert (100 * inject_Z (ka + k - kb) == JS.rem b 100 - JS.rem a 100)
    as Hd.
  { unfold Z.sub. rewrite !inject_Z_plus, inject_Z_opp. lra. }
  assert (inject_Z (-1) < inject_Z (ka + k - kb) < inject_Z 1) as [Hlo Hhi].
  { change (inject_Z (-1)) with (-1). change (inject_Z 1) with 1. lra. }
  rewrite <- Zlt_Qlt in Hlo, Hhi.
  assert (ka + k - kb = 0)%Z as Hz by lia.
  rewrite Hz in Hd. change (inject_Z 0) with 0 in Hd. lra.
Qed.

(** X1: The clothing rule keeps nothing of the hundreds of a raw price: two
    non-negative raw prices that differ by a whole number of hundreds get
    the same display price. *)
Theorem clothing_price_drops_hundreds (a b : item) (k : Z) :
  contains (category a) "clothing" →
  contains (category b) "clothing" →
  0 <= price a → 0 <= price b →
  price b == price a + 100 * inject_Z k →
  getCustomPrice b == getCustomPrice a.
Proof.
  intros Ha%includes_true_iff Hb%includes_true_iff Hpa Hpb Hk.
  unfold getCustomPrice. rewrite Ha, Hb.
  by rewrite (rem_100_congruent _ _ k Hpa Hpb Hk).
Qed.

Lemma clothing_price_drops_hundreds_witness :
  getCustomPrice (Item 2 "" 359.5 "" "women's clothing" "" None 1)
  == getCustomPrice (Item 1 "" 59.5 "" "men's clothing" "" None 1).
Proof.
  apply (clothing_price_drops_hundreds
           (Item 1 "" 59.5 "" "men's clothing" "" None 1)
           (Item 2 "" 359.5 "" "women's clothing" "" None 1) 3).
  - by exists "men's ", "".
  - by exists "women's ", "".
  - vm_compute; discriminate.
  - vm_compute; discriminate.
  - reflexivity.
Defined.

(** X2: With a non-negative raw price no display price is below [200], and
    outside clothing none is below [1000]. *)
Theorem getCustomPrice_floor (product : item) :
  0 <= price product →
  200 <= getCustomPrice product
  ∧ (¬ contains (category product) "clothing" →
     1000 <= getCustomPrice product).
Proof.
  intros Hp.
  destruct (getCustomPrice_cases product) as [[Hc ->] | [Hc Hv]].
  - destruct (rem_100_nonneg _ Hp) as [Hb _]. split; [lra | done].
  - destruct Hv as [-> | [-> | ->]]; split; intros; lra.
Qed.

Lemma getCustomPrice_floor_witness :
  0 <= 0
  ∧ 200 <= getCustomPrice (Item 1 "" 0 "" "men's clothing" "" None 1).
Proof.
  assert (0 <= 0) as Hp by (vm_compute; discriminate).
  split; [exact Hp |].
  exact (proj1 (getCustomPrice_floor
                  (Item 1 "" 0 "" "men's clothing" "" None 1) Hp)).
Defined.

(** X3: With non-negative raw prices a clothing product is displayed cheaper
    than any product outside clothing, whatever the two raw prices. *)
Theorem clothing_cheaper_than_others (a b : item) :
  contains (category a) "clothing" →
  ¬ contains (category b) "clothing" →
  0 <= price a → 0 <= price b →
  getCustomPrice a < getCustomPrice b.
Proof.
  intros Ha Hb Hpa Hpb.
  destruct (getCustomPrice_cases a) as [[_ ->] | [Hn _]]; [|done].
  destruct (rem_100_nonneg _ Hpa) as [Hr _].
  destruct (getCustomPrice_cases b) as [[Hc _] | [_ Hv]]; [done|].
  destruct Hv as [-> | [-> | ->]]; lra.
Qed.

Lemma clothing_cheaper_than_others_witness :
  getCustomPrice (Item 1 "" 99 "" "men's clothing" "" None 1)
  < getCustomPrice (Item 2 "" 1 "" "books" "" None 1).
Proof.
  apply clothing_cheaper_than_others.
  - by exists "men's ", "".
  - apply includes_false_iff. reflexivity.
  - vm_compute; discriminate.
  - vm_compute; discriminate.
Defined.

Lemma toFixed0_between (x : Q) (lo hi : Z) :
  0 <= x → inject_Z lo <= x → x <= inject_Z hi →
  (lo <= JSLib.toFixed0 x <= hi)%Z.
Proof.
  intros H0 Hlo Hhi. unfold JSLib.toFixed0.
  assert (Qle_bool 0 x = true) as -> by by apply Qle_bool_iff.
  split.
  - rewrite <- (Qfloor_Z lo). apply Qfloor_resp_le. lra.
  - apply Z.lt_succ_r. rewrite Zlt_Qlt.
    eapply Qle_lt_trans; [apply Qfloor_le|].
    unfold Z.succ. rewrite inject_Z_plus. change (inject_Z 1) with 1. lra.
Qed.

(** X5: The price printed for a clothing product with a non-negative raw
    price is a whole number from [200] to [300]. *)
Theorem clothing_price_printed (product : item) :
  contains (category product) "clothing" →
  0 <= price product →
  (200 <= JSLib.toFixed0 (getCustomPrice product) <= 300)%Z.
Proof.
  intros Hc%includes_true_iff Hp. unfold getCustomPrice. rewrite Hc.
  destruct (rem_100_nonneg _ Hp) as [Hb _].
  apply toFixed0_between; change (inject_Z 200) with 200;
    change (inject_Z 300) with 300; lra.
Qed.

Lemma clothing_price_printed_witness :
  JSLib.toFixed0 (getCustomPrice
                    (Item 1 "" 99.5 "" "men's clothing" "" None 1)) = 300%Z
  ∧ (200 <= JSLib.toFixed0
              (getCustomPrice (Item 1 "" 99.5 "" "men's clothing" "" None 1))
     <= 300)%Z.
Proof.
  split; [reflexivity |].
  apply clothing_price_printed.
  - by exists "men's ", "".
  - vm_compute; discriminate.
Defined.

End pricing_more.

(** ** More on the cart store *)

Section cart_more.
Implicit Types (cart : list item) (product line : item) (q : Q).
Open Scope Q_scope.



Lemma getCustomPrice_with_qty line q :
  getCustomPrice (with_qty line q) = getCustomPrice line.
Proof. done. Qed.

Lemma line_of_elem (id0 : Z) cart line :
  line_of id0 cart = Some line → line ∈ cart ∧ id line = id0.
Proof.
  unfold line_of. intros [Hin Hid]%find_some.
  split; [by apply list_elem_of_In | by apply bool_decide_eq_true in Hid].
Qed.

Lemma line_of_None (id0 : Z) cart : line_of id0 cart = None ↔ id0 ∉ ids cart.
Proof. apply find_by_id_None. Qed.

Lemma line_of_NoDup cart line :
  NoDup (ids cart) → line ∈ cart → line_of (id line) cart = Some line.
Proof.
  unfold line_of, ids. induction cart as [|i cart IH]; simpl.
  - by intros _ ?%elem_of_nil.
  - rewrite NoDup_cons. intros [Hi Hnd] [->|Hin]%elem_of_cons.
    + by rewrite bool_decide_eq_true_2.
    + rewrite bool_decide_eq_false_2; [by apply IH|].
      intros Heq. apply Hi. rewrite Heq. by apply list_elem_of_fmap_2.
Qed.

Lemma removeFromCart_absent (id0 : Z) cart :
  id0 ∉ ids cart → removeFromCart id0 cart = cart.
Proof.
  unfold removeFromCart, ids. induction cart as [|i cart IH]; [done|].
  rewrite fmap_cons, not_elem_of_cons. intros [Hi Hn].
  rewrite filter_cons_True by done. by rewrite IH.
Qed.

(** X6: Removing what was just added. *)
Theorem removeFromCart_addToCart product cart :
  id product ∉ ids cart →
  removeFromCart (id product) (addToCart product cart) = cart.
Proof.
  intros Hn. rewrite (addToCart_absent _ _ Hn). unfold removeFromCart.
  rewrite filter_app, filter_cons_False, filter_nil, app_nil_r by (by intros []).
  by apply removeFromCart_absent.
Qed.

Lemma removeFromCart_addToCart_witness :
  removeFromCart 5
    (addToCart (Item 5 "Shirt" 50 "" "men's clothing" "" (Some "M") 0)
       [Item 1 "TV" 300 "" "electronics" "" None 2])
  = [Item 1 "TV" 300 "" "electronics" "" None 2].
Proof.
  apply (removeFromCart_addToCart
           (Item 5 "Shirt" 50 "" "men's clothing" "" (Some "M") 0)
           [Item 1 "TV" 300 "" "electronics" "" None 2]).
  unfold ids. simpl. rewrite list_elem_of_singleton. discriminate.
Defined.


(** X7: Of two quantity edits of one line the later one stands. *)
Theorem updateQty_last_wins (id0 : Z) q q' cart :
  updateQty id0 q' (updateQty id0 q cart) = updateQty id0 q' cart.
Proof.
  unfold updateQty. rewrite <- list_fmap_compose. apply list_fmap_ext.
  intros n i _. simpl. destruct (bool_decide (id i = id0)) eqn:Hi; simpl.
  - by rewrite Hi.
  - by rewrite Hi.
Qed.

(** X8: Removals can be made in any order, and a removal made twice is made
    once. *)
Theorem removeFromCart_order (id0 id1 : Z) cart :
  removeFromCart id0 (removeFromCart id1 cart)
  = removeFromCart id1 (removeFromCart id0 cart)
  ∧ removeFromCart id0 (removeFromCart id0 cart) = removeFromCart id0 cart.
Proof.
  unfold removeFromCart. split.
  - rewrite !list_filter_filter. apply list_filter_iff. intros i. tauto.
  - rewrite list_filter_filter. apply list_filter_iff. intros i. tauto.
Qed.

(** X9: A quantity edit and a removal give the same cart in either order,
    also when they are about the same line. *)
Theorem updateQty_removeFromCart (id0 id1 : Z) q cart :
  updateQty id0 q (removeFromCart id1 cart)
  = removeFromCart id1 (updateQty id0 q cart).
Proof.
  unfold updateQty, removeFromCart.
  induction cart as [|i cart IH]; [done|].
  rewrite fmap_cons, !filter_cons. simpl.
  assert (id (if bool_decide (id i = id0) then with_qty i q else i) = id i)
    as -> by by case_bool_decide.
  case_decide; rewrite ?fmap_cons, IH; done.
Qed.

(** X10: Under the uniqueness of ids, removing a line of the cart lowers the
    count of the navigation bar by one. *)
Theorem cartCount_removeFromCart (id0 : Z) cart :
  NoDup (ids cart) → id0 ∈ ids cart →
  S (cartCount (removeFromCart id0 cart)) = cartCount cart.
Proof.
  unfold cartCount, removeFromCart, ids.
  induction cart as [|i cart IH]; simpl.
  - by intros _ ?%elem_of_nil.
  - rewrite NoDup_cons, filter_cons. intros [Hi Hnd] Hin.
    case_decide as Hd.
    + simpl. rewrite IH; [done | done |].
      apply elem_of_cons in Hin as [Heq | Hin]; [by destruct Hd | done].
    + rewrite <- Hd in *. f_equal.
      change (length (removeFromCart (id i) cart) = length cart).
      by rewrite removeFromCart_absent.
Qed.

Lemma cartCount_removeFromCart_witness :
  S (cartCount (removeFromCart 1
       [Item 1 "TV" 300 "" "electronics" "" None 2;
        Item 5 "Shirt" 50 "" "men's clothing" "" (Some "M") 1]))
  = cartCount [Item 1 "TV" 300 "" "electronics" "" None 2;
               Item 5 "Shirt" 50 "" "men's clothing" "" (Some "M") 1].
Proof.
  apply cartCount_removeFromCart.
  - unfold ids. simpl. apply (bool_decide_unpack _). reflexivity.
  - unfold ids. simpl. apply (bool_decide_unpack _). reflexivity.
Defined.


End cart_more.

Section cart_counts.
Implicit Types (cart products : list item) (product line : item).
Open Scope Q_scope.

Lemma line_of_app (id0 : Z) cart cart' :
  line_of id0 (cart ++ cart')
  = match line_of id0 cart with
    | Some line => Some line
    | None => line_of id0 cart'
    end.
Proof.
  unfold line_of. induction cart as [|i cart IH]; simpl; [done|].
  by case_bool_decide.
Qed.

Lemma line_of_fmap (id0 : Z) (g : item → item) cart :
  (∀ i, id (g i) = id i) → line_of id0 (g <$> cart) = g <$> line_of id0 cart.
Proof.
  intros Hg. unfold line_of. induction cart as [|i cart IH]; simpl; [done|].
  rewrite Hg. by destruct (bool_decide (id i = id0)).
Qed.

Lemma line_of_set_qty (id0 id1 : Z) (f : item → Q) cart :
  line_of id0
    ((λ i, if bool_decide (id i = id1) then with_qty i (f i) else i) <$> cart)
  = (λ i, if bool_decide (id i = id1) then with_qty i (f i) else i)
      <$> line_of id0 cart.
Proof. apply line_of_fmap. intros i. by case_bool_decide. Qed.

(** The line of an id after [addToCart]. *)
Lemma line_of_addToCart (id0 : Z) product cart :
  line_of id0 (addToCart product cart)
  = if bool_decide (id product = id0)
    then match line_of id0 cart with
         | Some line => Some (with_qty line (qty line + 1))
         | None => Some (with_qty product 1)
         end
    else line_of id0 cart.
Proof.
  destruct (decide (id product ∈ ids cart)) as [Hin | Hn].
  - rewrite (addToCart_present _ _ Hin), line_of_set_qty.
    case_bool_decide as Hp.
    + subst id0. destruct (line_of (id product) cart) as [line|] eqn:Hl.
      * apply line_of_elem in Hl as [_ Hid]. simpl.
        by rewrite bool_decide_eq_true_2.
      * by apply line_of_None in Hl.
    + destruct (line_of id0 cart) as [line|] eqn:Hl; [|done].
      apply line_of_elem in Hl as [_ Hid]. simpl.
      rewrite bool_decide_eq_false_2; [done | congruence].
  - rewrite (addToCart_absent _ _ Hn), line_of_app.
    case_bool_decide as Hp.
    + subst id0. apply line_of_None in Hn. rewrite Hn.
      unfold line_of. simpl. by rewrite bool_decide_eq_true_2.
    + destruct (line_of id0 cart); [done|].
      unfold line_of. simpl. by rewrite bool_decide_eq_false_2.
Qed.

Lemma added_cons (id0 : Z) product products :
  added id0 (product :: products)
  = if bool_decide (id product = id0) then S (added id0 products)
    else added id0 products.
Proof.
  unfold added. rewrite filter_cons.
  case_decide; [by rewrite bool_decide_eq_true_2
               | by rewrite bool_decide_eq_false_2].
Qed.

Lemma added_zero_iff (id0 : Z) products :
  added id0 products = 0%nat ↔ line_of id0 products = None.
Proof.
  induction products as [|p products IH]; [done|].
  rewrite added_cons. unfold line_of in *. simpl.
  by destruct (bool_decide (id p = id0)).
Qed.

Lemma run_add_line_of (id0 : Z) products cart :
  match line_of id0 (cart ++ ((λ p, with_qty p 0) <$> products)) with
  | Some first =>
      ∃ line, line_of id0 (run cart (AddToCart <$> products)) = Some line
        ∧ same_but_qty line first
        ∧ qty line == qty first + inject_Z (Z.of_nat (added id0 products))
  | None => line_of id0 (run cart (AddToCart <$> products)) = None
  end.
Proof.
  unfold run. revert cart.
  induction products as [|p products IH]; intros cart.
  - simpl. rewrite app_nil_r. destruct (line_of id0 cart) as [line|]; [|done].
    exists line. split_and!; [done | apply same_but_qty_refl |].
    unfold added. simpl. ring.
  - rewrite fmap_cons. simpl foldl. specialize (IH (addToCart p cart)).
    rewrite line_of_app, line_of_addToCart in IH.
    rewrite line_of_app, added_cons.
    change (line_of id0 (with_qty p 0 :: ((λ p, with_qty p 0) <$> products)))
      with (if bool_decide (id p = id0) then Some (with_qty p 0)
            else line_of id0 ((λ p, with_qty p 0) <$> products)).
    destruct (bool_decide (id p = id0)) eqn:Hp.
    + destruct (line_of id0 cart) as [l0|].
      * destruct IH as (line & Hl & Hs & Hq). exists line.
        split_and!; [done | done |]. rewrite Hq. simpl.
        rewrite Nat2Z.inj_succ. unfold Z.succ. rewrite inject_Z_plus.
        change (inject_Z 1) with 1. ring.
      * destruct IH as (line & Hl & Hs & Hq). exists line.
        split_and!; [done | done |]. rewrite Hq. simpl.
        rewrite Nat2Z.inj_succ. unfold Z.succ. rewrite inject_Z_plus.
        change (inject_Z 1) with 1. ring.
    + destruct (line_of id0 cart) as [l0|]; done.
Qed.

(** X17: After a sequence of [addToCart] calls from the empty cart, the line
    of an id is the first product added with that id, with the number of
    the calls made with that id for quantity; an id that was not added
    has no line. *)
Theorem addToCart_counts (id0 : Z) products :
  match line_of id0 products with
  | Some first =>
      ∃ line, line_of id0 (run [] (AddToCart <$> products)) = Some line
        ∧ same_but_qty line first
        ∧ qty line == inject_Z (Z.of_nat (added id0 products))
        ∧ (0 < added id0 products)%nat
  | None =>
      line_of id0 (run [] (AddToCart <$> products)) = None
      ∧ added id0 products = 0%nat
  end.
Proof.
  pose proof (run_add_line_of id0 products []) as H.
  rewrite app_nil_l, line_of_fmap in H by done.
  pose proof (added_zero_iff id0 products) as Hz.
  destruct (line_of id0 products) as [first|] eqn:Hf; simpl in H.
  - destruct H as (line & Hl & Hs & Hq). exists line.
    split_and!; [done | | |].
    + destruct Hs as (? & ? & ? & ? & ? & ? & ?). by repeat split.
    + rewrite Hq. simpl. ring.
    + destruct (added id0 products); [|lia]. destruct Hz as [Hz _].
      by discriminate Hz.
  - split; [done | by apply Hz].
Qed.

End cart_counts.

(** ** Product page *)

Section product_page.
Implicit Types (cart : list item) (product line : item) (s : string).

(** X18: [handleAdd] refuses a clothing product without a chosen size: it
    raises the alert and leaves the cart as it was. In every other case
    it raises no alert and adds the product with the size. *)
Theorem handleAdd_guard product s cart :
  (contains (category product) "clothing" ∧ s = "" →
     handleAdd product s cart = (Some "Please select a size", cart))
  ∧ (¬ (contains (category product) "clothing" ∧ s = "") →
     handleAdd product s cart
     = (None, addToCart (with_size product s) cart)).
Proof.
  unfold handleAdd. split.
  - intros [Hc%includes_true_iff ->]. by rewrite Hc.
  - intros Hn.
    destruct (JS.includes (category product) "clothing") eqn:Hc; [|done].
    destruct s; [|done].
    destruct Hn. split; [by apply includes_true_iff | done].
Qed.

Lemma sized_with_qty line (q : Q) : sized line → sized (with_qty line q).
Proof. done. Qed.

Lemma Forall_sized_set_qty (id0 : Z) (f : item → Q) cart :
  Forall sized cart →
  Forall sized
    ((λ i, if bool_decide (id i = id0) then with_qty i (f i) else i) <$> cart).
Proof.
  intros H. apply Forall_fmap. eapply Forall_impl; [exact H|].
  intros i Hi. simpl. by case_bool_decide.
Qed.

Lemma after_invariant cart (g : gesture) :
  NoDup (ids cart) ∧ Forall sized cart →
  NoDup (ids (after cart g)) ∧ Forall sized (after cart g).
Proof.
  intros [Hnd Hs]. destruct g as [product s | id0 q | id0]; simpl.
  - unfold handleAdd.
    destruct (JS.includes (category product) "clothing" && negb (JS.truthy s))
      eqn:Hg; simpl; [done|].
    split; [apply (step_NoDup cart (AddToCart (with_size product s)) Hnd)|].
    destruct (decide (id (with_size product s) ∈ ids cart)) as [Hin|Hn].
    + rewrite (addToCart_present _ _ Hin).
      by apply (Forall_sized_set_qty _ (λ i, (qty i + 1)%Q)).
    + rewrite (addToCart_absent _ _ Hn). apply Forall_app. split; [done|].
      apply Forall_singleton. exists s. split; [done|].
      simpl. intros Hc%includes_true_iff ->. by rewrite Hc in Hg.
  - split; [by rewrite ids_updateQty|].
    by apply (Forall_sized_set_qty _ (λ _, q)).
  - split; [apply (step_NoDup cart (RemoveFromCart id0) Hnd)|].
    unfold removeFromCart. rewrite Forall_forall in Hs |- *.
    intros x [_ Hx]%list_elem_of_filter. by apply Hs.
Qed.

(** X19: Whatever the visitor does from the empty cart, no two lines of the
    cart share an id, every line carries the size it was added with, and
    no clothing line has an empty size. *)
Theorem session_invariant (gs : list gesture) :
  NoDup (ids (session gs)) ∧ Forall sized (session gs).
Proof.
  unfold session.
  assert (∀ cart, NoDup (ids cart) ∧ Forall sized cart →
            NoDup (ids (foldl after cart gs))
            ∧ Forall sized (foldl after cart gs)) as H.
  { induction gs as [|g gs IH]; intros cart Hc; simpl; [done|].
    by apply IH, after_invariant. }
  apply H. split; [apply NoDup_nil_2 | apply Forall_nil_2].
Qed.

(** X20: Choosing another size for a product that the cart already has
    changes no size in the cart: the size chosen at the first addition
    stays. *)
Theorem handleAdd_keeps_first_size product s cart :
  id product ∈ ids cart →
  size <$> (handleAdd product s cart).2 = size <$> cart
  ∧ ids (handleAdd product s cart).2 = ids cart.
Proof.
  intros Hin. unfold handleAdd.
  destruct (JS.includes (category product) "clothing" && negb (JS.truthy s));
    simpl; [done|].
  rewrite addToCart_present by done. split.
  - rewrite <- list_fmap_compose. apply list_fmap_ext.
    intros n i _. simpl. by case_bool_decide.
  - apply (ids_set_qty _ (λ i, (qty i + 1)%Q)).
Qed.

Lemma handleAdd_keeps_first_size_witness :
  size <$> (handleAdd (Item 5 "Shirt" 50 "" "men's clothing" "" None 0) "L"
              [Item 5 "Shirt" 50 "" "men's clothing" "" (Some "M") 1]).2
  = [Some "M"].
Proof.
  apply (handleAdd_keeps_first_size
           (Item 5 "Shirt" 50 "" "men's clothing" "" None 0) "L"
           [Item 5 "Shirt" 50 "" "men's clothing" "" (Some "M") 1]).
  apply list_elem_of_singleton. reflexivity.
Defined.

End product_page.

(** ** Arrays and strings of the product list *)

Section js_lib.
Open Scope Q_scope.

Lemma contains_empty (s : string) : contains s "".
Proof. by exists "", s. Qed.

Context {A : Type}.
Implicit Types (l : list A) (x y : A) (compare : A → A → Q) (key : A → Q).

Lemma insert_Permutation compare x l : JSLib.insert compare x l ≡ₚ x :: l.
Proof.
  induction l as [|y l IH]; simpl; [done|].
  destruct (Qle_bool 0 (compare y x)); [done|].
  by rewrite IH, Permutation_swap.
Qed.

Lemma sort_Permutation compare l : JSLib.sort compare l ≡ₚ l.
Proof.
  unfold JSLib.sort. induction l as [|x l IH]; simpl; [done|].
  by rewrite insert_Permutation, IH.
Qed.

(** For a comparator that orders by a key, [sort] gives an array in the
    order of the keys. *)
Lemma insert_sorted compare key x l :
  (∀ a b, 0 <= compare a b ↔ key b <= key a) →
  StronglySorted (λ a b, key a <= key b) l →
  StronglySorted (λ a b, key a <= key b) (JSLib.insert compare x l).
Proof.
  intros Hc. induction 1 as [|y l Hs IH Hy]; simpl.
  - repeat constructor.
  - destruct (Qle_bool 0 (compare y x)) eqn:Hle.
    + apply Qle_bool_iff, Hc in Hle.
      constructor; [by constructor|].
      constructor; [done|].
      eapply Forall_impl; [exact Hy|]. simpl. intros z Hz. lra.
    + assert (key y <= key x) as Hyx.
      { apply Qlt_le_weak, Qnot_le_lt. intros Hn%Hc%Qle_bool_iff. congruence. }
      constructor; [done|].
      rewrite (insert_Permutation compare x l). by constructor.
Qed.

Lemma sort_sorted compare key l :
  (∀ a b, 0 <= compare a b ↔ key b <= key a) →
  StronglySorted (λ a b, key a <= key b) (JSLib.sort compare l).
Proof.
  intros Hc. unfold JSLib.sort. induction l as [|x l IH]; simpl.
  - constructor.
  - by apply (insert_sorted compare key).
Qed.

Lemma filter_all (P : A → Prop) `{∀ x, Decision (P x)} l :
  (∀ x, P x) → filter P l = l.
Proof.
  intros HP. induction l as [|x l IH]; [done|].
  by rewrite filter_cons_True, IH.
Qed.

Lemma StronglySorted_weaken (R R' : A → A → Prop) l :
  (∀ a b, R a b → R' a b) → StronglySorted R l → StronglySorted R' l.
Proof.
  intros HR. induction 1 as [|x l _ IH Hx]; constructor; [done|].
  eapply Forall_impl; [exact Hx | auto].
Qed.

(** The sort is stable: the elements of one key keep their order. *)
Lemma insert_stable compare key (v : Q) x l :
  (∀ a b, 0 <= compare a b ↔ key b <= key a) →
  filter (λ a, Is_true (Qeq_bool (key a) v)) (JSLib.insert compare x l)
  = filter (λ a, Is_true (Qeq_bool (key a) v)) (x :: l).
Proof.
  intros Hc. induction l as [|y l IH]; simpl; [done|].
  destruct (Qle_bool 0 (compare y x)) eqn:Hle; [done|].
  assert (key y < key x) as Hyx.
  { apply Qnot_le_lt. intros Hn%Hc%Qle_bool_iff. congruence. }
  rewrite (filter_cons _ y), IH, !(filter_cons _ x), (filter_cons _ y).
  destruct (decide (Is_true (Qeq_bool (key x) v))) as [Hx|Hx]; [|done].
  destruct (decide (Is_true (Qeq_bool (key y) v))) as [Hy|Hy]; [|done].
  apply Is_true_true, Qeq_bool_iff in Hx, Hy. lra.
Qed.

Lemma sort_stable compare key (v : Q) l :
  (∀ a b, 0 <= compare a b ↔ key b <= key a) →
  filter (λ a, Is_true (Qeq_bool (key a) v)) (JSLib.sort compare l)
  = filter (λ a, Is_true (Qeq_bool (key a) v)) l.
Proof.
  intros Hc. unfold JSLib.sort. induction l as [|x l IH]; simpl; [done|].
  rewrite (insert_stable compare key v) by done.
  by rewrite !(filter_cons _ x), IH.
Qed.

End js_lib.

Section js_set.
Context `{EqDecision A}.
Implicit Types (l seen : list A) (x : A).

Lemma new_Set_from seen l :
  NoDup seen →
  NoDup (foldl (λ seen x, if decide (x ∈ seen) then seen else seen ++ [x])
           seen l)
  ∧ ∀ x, x ∈ foldl (λ seen x, if decide (x ∈ seen) then seen
                             else seen ++ [x]) seen l
         ↔ x ∈ seen ∨ x ∈ l.
Proof.
  revert seen. induction l as [|y l IH]; intros seen Hnd; simpl.
  - split; [done|]. intros x. rewrite elem_of_nil. tauto.
  - case_decide as Hy.
    + destruct (IH seen Hnd) as [H1 H2]. split; [done|].
      intros x. rewrite H2, elem_of_cons.
      split; [tauto|]. intros [?|[->|?]]; tauto.
    + assert (NoDup (seen ++ [y])) as Hnd'.
      { apply NoDup_app. split_and!; [done | | apply NoDup_singleton].
        by intros x Hx ->%list_elem_of_singleton. }
      destruct (IH _ Hnd') as [H1 H2]. split; [done|].
      intros x. rewrite H2, elem_of_app, list_elem_of_singleton, elem_of_cons.
      tauto.
Qed.

Lemma new_Set_NoDup l : NoDup (JSLib.new_Set l).
Proof. apply (new_Set_from [] l), NoDup_nil_2. Qed.

Lemma new_Set_elem x l : x ∈ JSLib.new_Set l ↔ x ∈ l.
Proof.
  unfold JSLib.new_Set.
  destruct (new_Set_from [] l (NoDup_nil_2)) as [_ H].
  rewrite H, elem_of_nil. tauto.
Qed.

End js_set.

(** ** Product list *)

Section product_list.
Implicit Types (products : list item) (p : item).
Implicit Types (search sort cat : string).
Open Scope Q_scope.

(** The products that pass the search box and the category menu, before
    any sort. *)
Lemma filtered_unsorted products search cat :
  filtered products search "" cat
  = filter (λ p, Is_true (if bool_decide (cat = "all") then true
                          else bool_decide (category p = cat)))
      (filter (λ p, Is_true (JS.includes (JSLib.toLowerCase (title p))
                                          (JSLib.toLowerCase search)))
         products).
Proof. done. Qed.

Lemma filtered_sort products search sort cat :
  filtered products search sort cat
  = if bool_decide (sort = "low")
    then JSLib.sort (λ a b, getCustomPrice a - getCustomPrice b)
           (filtered products search "" cat)
    else if bool_decide (sort = "high")
    then JSLib.sort (λ a b, getCustomPrice b - getCustomPrice a)
           (filtered products search "" cat)
    else filtered products search "" cat.
Proof.
  rewrite filtered_unsorted. unfold filtered.
  case_bool_decide as Hl; [|done]. subst sort. done.
Qed.

Lemma filtered_Permutation products search sort cat :
  filtered products search sort cat ≡ₚ filtered products search "" cat.
Proof.
  rewrite (filtered_sort _ _ sort).
  repeat case_bool_decide; by rewrite ?sort_Permutation.
Qed.

Lemma ascending_compare (a b : item) :
  0 <= getCustomPrice a - getCustomPrice b
  ↔ getCustomPrice b <= getCustomPrice a.
Proof. split; lra. Qed.

Lemma descending_compare (a b : item) :
  0 <= getCustomPrice b - getCustomPrice a
  ↔ - getCustomPrice b <= - getCustomPrice a.
Proof. split; lra. Qed.

(** X21: A product is shown exactly when it is in the catalog, its title
    contains the text of the search box, letter case aside, and its
    category is the one chosen or the choice is "all". *)
Theorem filtered_shows products search sort cat p :
  p ∈ filtered products search sort cat
  ↔ p ∈ products
    ∧ contains (JSLib.toLowerCase (title p)) (JSLib.toLowerCase search)
    ∧ (cat = "all" ∨ category p = cat).
Proof.
  rewrite filtered_Permutation, filtered_unsorted.
  rewrite !list_elem_of_filter.
  rewrite (Is_true_true (JS.includes _ _)), includes_true_iff.
  case_bool_decide as Hc.
  - split; [intros (_ & ? & ?); auto | intros (? & ? & _); auto].
  - rewrite Is_true_true, bool_decide_eq_true. split.
    + intros (? & ? & ?); auto.
    + intros (? & ? & [?|?]); [done | auto].
Qed.

(** X22: The option "Low → High" lists the products by display price from the
    lowest, and "High → Low" from the highest. *)
Theorem filtered_in_price_order products search cat :
  StronglySorted (λ a b, getCustomPrice a <= getCustomPrice b)
    (filtered products search "low" cat)
  ∧ StronglySorted (λ a b, getCustomPrice b <= getCustomPrice a)
      (filtered products search "high" cat).
Proof.
  rewrite (filtered_sort _ _ "low"), (filtered_sort _ _ "high").
  rewrite (bool_decide_eq_true_2 ("low" = "low")) by done.
  rewrite (bool_decide_eq_false_2 ("high" = "low")) by done.
  rewrite (bool_decide_eq_true_2 ("high" = "high")) by done.
  split.
  - apply (sort_sorted _ getCustomPrice), ascending_compare.
  - pose proof (sort_sorted (λ a b, getCustomPrice b - getCustomPrice a)
                  (λ a, - getCustomPrice a)
                  (filtered products search "" cat) descending_compare)
      as Hsorted.
    eapply StronglySorted_weaken; [|exact Hsorted]. simpl. intros a b. lra.
Qed.

(** X23: A sort changes the order of the products shown and nothing else, and
    without a sort they are shown in the order of the catalog. *)
Theorem filtered_same_products products search sort cat :
  filtered products search sort cat ≡ₚ filtered products search "" cat
  ∧ (filtered products search "" cat `sublist_of` products)
  ∧ (sort ≠ "low" → sort ≠ "high" →
     filtered products search sort cat = filtered products search "" cat).
Proof.
  split_and!.
  - apply filtered_Permutation.
  - rewrite filtered_unsorted.
    etrans; apply sublist_filter.
  - intros Hl Hh. rewrite (filtered_sort _ _ sort).
    by rewrite !bool_decide_eq_false_2.
Qed.

(** X24: Both sorts are stable: products of one display price stay in the
    order of the catalog. *)
Theorem filtered_stable products search sort cat (v : Q) :
  filter (λ p, Is_true (Qeq_bool (getCustomPrice p) v))
    (filtered products search sort cat)
  = filter (λ p, Is_true (Qeq_bool (getCustomPrice p) v))
      (filtered products search "" cat).
Proof.
  rewrite (filtered_sort _ _ sort). repeat case_bool_decide; [| |done].
  - apply (sort_stable _ getCustomPrice), ascending_compare.
  - pose proof (sort_stable (λ a b, getCustomPrice b - getCustomPrice a)
                  (λ a, - getCustomPrice a) (- v)
                  (filtered products search "" cat) descending_compare)
      as Hst.
    assert (∀ l : list item,
              filter (λ p, Is_true (Qeq_bool (getCustomPrice p) v)) l
              = filter (λ p, Is_true (Qeq_bool (- getCustomPrice p) (- v))) l)
      as Heq.
    { intros l. apply list_filter_iff. intros p.
      rewrite !Is_true_true, !Qeq_bool_iff. split; intros; lra. }
    by rewrite !Heq.
Qed.

(** X26: With an empty search box and the option "all" the whole catalog is
    shown, in its own order when no sort is chosen. *)
Theorem filtered_everything products sort :
  filtered products "" sort "all" ≡ₚ products
  ∧ filtered products "" "" "all" = products.
Proof.
  assert (filtered products "" "" "all" = products) as H.
  { rewrite filtered_unsorted. simpl.
    rewrite (filter_all (λ p, Is_true (JS.includes _ _))).
    - by apply filter_all.
    - intros p. apply Is_true_true, includes_true_iff, contains_empty. }
  split; [|done]. by rewrite filtered_Permutation, H.
Qed.

(** X27: The category menu offers "all" first and then each category of the
    catalog once. *)
Theorem categories_menu products :
  ∃ rest, categories products = "all" :: rest
    ∧ NoDup rest
    ∧ ∀ c, c ∈ rest ↔ ∃ p, p ∈ products ∧ category p = c.
Proof.
  eexists. split; [done|]. split; [apply new_Set_NoDup|].
  intros c. rewrite new_Set_elem, list_elem_of_fmap. split.
  - intros (p & -> & Hp). eauto.
  - intros (p & Hp & <-). eauto.
Qed.

(** X28: Every option of the category menu shows at least one product of a
    catalog that is not empty, when the search box is empty. *)
Theorem categories_not_empty products sort cat :
  products ≠ [] → cat ∈ categories products →
  filtered products "" sort cat ≠ [].
Proof.
  intros Hne Hin.
  assert (∃ p, p ∈ products ∧ (cat = "all" ∨ category p = cat))
    as (p & Hp & Hc).
  { unfold categories in Hin. apply elem_of_cons in Hin as [-> | Hin].
    - destruct products as [|p ?]; [done|]. exists p. split; [|by left].
      apply elem_of_cons. by left.
    - apply new_Set_elem, list_elem_of_fmap in Hin as (p & -> & Hp). eauto. }
  assert (p ∈ filtered products "" sort cat) as Hf.
  { rewrite filtered_Permutation, filtered_unsorted.
    rewrite !list_elem_of_filter. split_and!; [| |done].
    - case_bool_decide; [done|]. destruct Hc; [done|].
      by apply Is_true_true, bool_decide_eq_true.
    - apply Is_true_true, includes_true_iff, contains_empty. }
  intros Hnil. rewrite Hnil in Hf. by apply elem_of_nil in Hf.
Qed.

Lemma categories_not_empty_witness :
  filtered [Item 1 "TV" 300 "" "electronics" "" None 0;
            Item 5 "Shirt" 50 "" "men's clothing" "" None 0]
    "" "high" "men's clothing" ≠ [].
Proof.
  apply categories_not_empty.
  - discriminate.
  - apply (bool_decide_unpack _). reflexivity.
Defined.

End product_list.

(** ** The cart on binary64 numbers *)

Section binary64_cart.
Implicit Types (cart : list Binary64Cart.item).
Implicit Types (product line : Binary64Cart.item).

Lemma binary64_find_Some product cart :
  is_Some (List.find
             (λ i, bool_decide (Binary64Cart.id i = Binary64Cart.id product))
             cart)
  ↔ Binary64Cart.id product ∈ Binary64Cart.id <$> cart.
Proof.
  induction cart as [|i cart IH]; simpl.
  - split; [by intros [? ?] | by intros ?%elem_of_nil].
  - rewrite elem_of_cons. case_bool_decide as Hi.
    + split; [by left | by eauto].
    + rewrite IH. split; [by right | by intros [?|?]].
Qed.

(** C2, as stated, fails: at a quantity of [2^53] the sum of the
    quantity and [1] rounds back to [2^53], so adding the product again
    leaves the cart as it was. *)
Lemma addToCart_qty_not_incremented :
  Binary64Cart.addToCart
    (Binary64Cart.Item 5 "Shirt" 50 "" "men's clothing" "" (Some "M") 0)
    [Binary64Cart.Item 5 "Shirt" 50 "" "men's clothing" "" (Some "M")
       0x1p+53]
  = [Binary64Cart.Item 5 "Shirt" 50 "" "men's clothing" "" (Some "M")
       0x1p+53]
  ∧ (0x1p+53 + 1 =? 0x1p+53)%float = true.
Proof. split; reflexivity. Qed.

(** C2, amended: when the cart has a line with the product's id, the
    cart keeps its length and order, the line of that id has its quantity
    replaced by the binary64 sum of the quantity and [1] and every other
    field as before, and the other lines are as before; when it has
    none, the cart is extended at its end by one line with quantity [1]
    and the product's other fields. *)
Theorem addToCart_binary64 product cart :
  (Binary64Cart.id product ∈ Binary64Cart.id <$> cart →
     length (Binary64Cart.addToCart product cart) = length cart
     ∧ ∀ (n : nat) line, cart !! n = Some line →
         ∃ line', Binary64Cart.addToCart product cart !! n = Some line'
           ∧ Binary64Cart.same_but_qty line' line
           ∧ (Binary64Cart.id line = Binary64Cart.id product →
              Binary64Cart.qty line' = (Binary64Cart.qty line + 1)%float)
           ∧ (Binary64Cart.id line ≠ Binary64Cart.id product →
              line' = line))
  ∧ (Binary64Cart.id product ∉ Binary64Cart.id <$> cart →
     ∃ line', Binary64Cart.addToCart product cart = cart ++ [line']
       ∧ Binary64Cart.same_but_qty line' product
       ∧ Binary64Cart.qty line' = 1%float).
Proof.
  split.
  - intros [i Hi]%binary64_find_Some. unfold Binary64Cart.addToCart.
    rewrite Hi. split; [by rewrite length_fmap|].
    intros n line Hn. rewrite list_lookup_fmap, Hn. simpl.
    case_bool_decide as Heq.
    + eexists. split; [done|]. by repeat split.
    + exists line. split; [done|]. by repeat split.
  - intros Hn. unfold Binary64Cart.addToCart.
    destruct (List.find _ cart) as [i|] eqn:Hf.
    + destruct Hn. apply binary64_find_Some. by rewrite Hf.
    + eexists. split; [done|]. by repeat split.
Qed.

(** C4, as stated, fails: the total depends on the order of the lines,
    so it is not the sum of the line amounts. The raw prices are
    [109.95], [9.85] and [22.3]; the totals are [1901.4999999999998] and
    [1901.5]. *)
Lemma total_depends_on_order :
  Binary64Cart.total
    [Binary64Cart.Item 1 "" 0x1.b7ccccccccccdp+6 "" "men's clothing" "" None 4;
     Binary64Cart.Item 2 "" 0x1.3b33333333333p+3 "" "men's clothing" "" None 4;
     Binary64Cart.Item 3 "" 0x1.64ccccccccccdp+4 "" "men's clothing" "" None 1]
  = 0x1.db5ffffffffffp+10%float
  ∧ Binary64Cart.total
      [Binary64Cart.Item 1 "" 0x1.b7ccccccccccdp+6 "" "men's clothing" ""
         None 4;
       Binary64Cart.Item 3 "" 0x1.64ccccccccccdp+4 "" "men's clothing" ""
         None 1;
       Binary64Cart.Item 2 "" 0x1.3b33333333333p+3 "" "men's clothing" ""
         None 4]
    = 0x1.db6p+10%float
  ∧ (0x1.db5ffffffffffp+10 <? 0x1.db6p+10)%float = true.
Proof. split_and!; reflexivity. Qed.

(** C4, amended: the total is the binary64 sum of the line amounts taken
    from left to right, starting from [0]: it is [0] for the empty cart,
    a line at the end of a cart adds its display price times its
    quantity to the total of the cart before it, each product and each
    sum rounded; for the cart of one clothing line of raw price [50] and
    quantity [2] it is [500]. *)
Theorem total_left_to_right :
  Binary64Cart.total [] = 0%float
  ∧ (∀ cart line,
       Binary64Cart.total (cart ++ [line])
       = (Binary64Cart.total cart
          + Binary64Cart.getCustomPrice line * Binary64Cart.qty line)%float)
  ∧ Binary64Cart.total [Binary64Cart.Item 1 "" 50 "" "clothing" "" None 2]
    = 500%float.
Proof.
  split_and!; [done | | reflexivity].
  intros cart line. unfold Binary64Cart.total. by rewrite foldl_app.
Qed.

(** C6: for the raw price [-50] in a clothing category the code returns
    [150], below the range of [200] to [300]. *)
Lemma clothing_price_negative_input :
  Binary64Cart.getCustomPrice
    (Binary64Cart.Item 1 "" (-50) "" "men's clothing" "" None 1)
  = 150%float
  ∧ (150 <? 200)%float = true
  ∧ getCustomPrice (Item 1 "" (-50) "" "men's clothing" "" None 1) = 150%Q.
Proof. split_and!; reflexivity. Qed.

End binary64_cart.
